(** * testsuite/rla/run.py: the RLA round-trip test driver

    The script prepends two entries to [sys.path], imports the shared
    helper module [runtest], builds one command string out of the
    fragments [runtest.rw_command] returns for fifteen fixture files,
    hands it to [runtest.runtest] and leaves through [sys.exit] with what
    that call returned.

    The helper module is not part of the script.  Its three attributes
    used here ([parent], [rw_command], [runtest]) and the effect of
    importing it are parameters of the development; they act on an
    abstract [World] (file system, child processes, whatever the helper
    owns) and may raise.  The script itself is a program in a small
    state-and-exception monad over the interpreter state; every call that
    leaves the script is logged in a trace. *)

From Stdlib Require Import List String Ascii ZArith Lia Bool.
Import ListNotations.
Local Open Scope string_scope.
Local Open Scope list_scope.

Set Implicit Arguments.

(** ** Python values and exceptions *)

(** The objects [runtest.runtest] may hand back and [sys.exit] accepts. *)
Inductive pyval : Type :=
| PyInt (n : Z)
| PyStr (s : string)
| PyNone.

Section Interpreter.

(** What the helper module owns and may change. *)
Variable World : Type.
(** The exceptions helper code may raise. *)
Variable exn : Type.

(** A raised object travelling up the stack: [sys.exit] raises
    [SystemExit], everything else is an ordinary exception. *)
Inductive raised : Type :=
| SystemExit (code : pyval)
| Exception (e : exn).

Inductive result (A : Type) : Type :=
| Ok (a : A)
| Raise (r : raised).
Arguments Raise {A} r.

(** Calls that leave the script, with their arguments and what came
    back, in program order. *)
Inductive event : Type :=
| EvImport (name : string) (path : list string) (r : result unit)
| EvRwCommand (dir file : string) (r : result string)
| EvRuntest (command : string) (r : result pyval)
| EvExit (code : pyval).

(** Process-wide interpreter state, the helper's world and the log. *)
Record interp : Type := mkInterp {
  sys_path : list string;
  sys_argv : list string;
  world : World;
  trace : list event
}.

Definition set_sys_path (p : list string) (s : interp) : interp :=
  mkInterp p (sys_argv s) (world s) (trace s).
Definition set_sys_argv (a : list string) (s : interp) : interp :=
  mkInterp (sys_path s) a (world s) (trace s).
Definition set_world (w : World) (s : interp) : interp :=
  mkInterp (sys_path s) (sys_argv s) w (trace s).
Definition log (e : event) (s : interp) : interp :=
  mkInterp (sys_path s) (sys_argv s) (world s) (trace s ++ [e]).

(** ** The monad of top-level statements *)

Definition M (A : Type) : Type := interp -> result A * interp.

Definition pure {A} (a : A) : M A := fun s => (Ok a, s).

Definition bind {A B} (m : M A) (k : A -> M B) : M B :=
  fun s =>
    match m s with
    | (Ok a, s') => k a s'
    | (Raise r, s') => (Raise r, s')
    end.

Definition raise {A} (r : raised) : M A := fun s => (Raise r, s).

(** A call into helper code: run it on the world, log call and answer. *)
Definition extern {A} (f : World -> result A * World)
           (ev : result A -> event) : M A :=
  fun s =>
    let '(r, w') := f (world s) in
    (r, log (ev r) (set_world w' s)).

(** [for x in l: acc = body(acc, x)] *)
Fixpoint for_each {A S} (l : list A) (body : S -> A -> M S) (acc : S)
  : M S :=
  match l with
  | [] => pure acc
  | x :: l' => bind (body acc x) (for_each l' body)
  end.

End Interpreter.

Arguments Ok {exn A} a.
Arguments Raise {exn A} r.
Arguments SystemExit {exn} code.
Arguments Exception {exn} e.
Arguments EvImport {exn} name path r.
Arguments EvRwCommand {exn} dir file r.
Arguments EvRuntest {exn} command r.
Arguments EvExit {exn} code.
Arguments pure {World exn A} a _.
Arguments raise {World exn A} r _.

Declare Scope py_scope.
Delimit Scope py_scope with py.
Notation "x <- m ;; k" := (bind m (fun x => k))
  (at level 100, m at next level, right associativity) : py_scope.
Notation "m ;; k" := (bind m (fun _ => k))
  (at level 100, right associativity) : py_scope.
Local Open Scope py_scope.

(** ** Integers on their way out of the process *)

(** [PyLong_AsLong] on a 64-bit [long]: the value when it fits, -1 (with
    an overflow error that is then dropped) when it does not. *)
Definition as_c_long (n : Z) : Z :=
  if ((- 2 ^ 63 <=? n) && (n <? 2 ^ 63))%Z then n else (-1)%Z.

(** The cast of a [long] to a 32-bit [int]. *)
Definition to_c_int (n : Z) : Z :=
  ((n + 2 ^ 31) mod 2 ^ 32 - 2 ^ 31)%Z.

(** What [wait] reports of [exit (n)]: the low eight bits. *)
Definition wait_status (n : Z) : Z := Z.land n 255.

(** ** The script *)

(** [files], lines 8-12 of run.py. *)
Definition files : list string :=
  [ "ginsu_a_nc10.rla"; "ginsu_a_ncf.rla"; "ginsu_rgba_nc8.rla";
    "ginsu_rgb_nc16.rla"; "imgmake_rgba_nc10.rla"; "ginsu_a_nc16.rla";
    "ginsu_rgba_nc10.rla"; "ginsu_rgba_ncf.rla"; "ginsu_rgb_nc8.rla";
    "imgmake_rgba_nc16.rla"; "ginsu_a_nc8.rla"; "ginsu_rgba_nc16.rla";
    "ginsu_rgb_nc10.rla"; "ginsu_rgb_ncf.rla"; "imgmake_rgba_nc8.rla" ].

Section Script.

Variable World : Type.
Variable exn : Type.

Local Abbreviation result := (result exn).
Local Abbreviation event := (event exn).
Local Abbreviation interp := (interp World exn).
Local Abbreviation M := (M World exn).

(** The helper module [runtest], as the script sees it. *)

(** Running the module's body when [import runtest] finds it along the
    given search path. *)
Variable import_runtest : list string -> World -> result unit * World.
(** [runtest.parent] *)
Variable parent : string.
(** [runtest.rw_command (dir, filename)] *)
Variable rw_command : string -> string -> World -> result string * World.
(** [runtest.runtest (command)] *)
Variable runtest : string -> World -> result pyval * World.

(** [sys.path = f (sys.path)] *)
Definition assign_sys_path (f : list string -> list string) : M unit :=
  fun s => (Ok tt, set_sys_path (f (sys_path s)) s).

(** [import runtest]: the module is looked up along [sys.path] as it is
    at this point. *)
Definition import_ (name : string) : M unit :=
  fun s =>
    extern (import_runtest (sys_path s)) (EvImport name (sys_path s)) s.

Definition call_rw_command (dir file : string) : M string :=
  extern (rw_command dir file) (EvRwCommand dir file).

Definition call_runtest (command : string) : M pyval :=
  extern (runtest command) (EvRuntest command).

(** [sys.exit (code)] logs the call and raises [SystemExit]. *)
Definition sys_exit (code : pyval) : M unit :=
  fun s => (Raise (SystemExit code), log (EvExit code) s).

(** Lines 13-15: the accumulator [command] and the loop over the file
    list, for any directory and any list. *)
Definition build_command (imagedir : string) (fs : list string)
  : M string :=
  for_each fs
    (fun command f =>
       frag <- call_rw_command imagedir f ;;
       pure (command ++ frag)%string)
    "".

(** Lines 7-19 with the file list left open. *)
Definition script_on (fs : list string) : M unit :=
  let imagedir := (parent ++ "/oiio-images")%string in
  command <- build_command imagedir fs ;;
  ret <- call_runtest command ;;
  sys_exit ret.

(** The whole of run.py. *)
Definition script : M unit :=
  assign_sys_path (fun p => [".."; "testsuite"] ++ p) ;;
  import_ "runtest" ;;
  script_on files.

(** The search path line 4 leaves behind. *)
Definition script_path (path : list string) : list string :=
  [".."; "testsuite"] ++ path.

(** A fresh interpreter: nothing logged yet. *)
Definition boot (path argv : list string) (w : World) : interp :=
  mkInterp path argv w [].

(** Running the script as a process. *)
Definition main (path argv : list string) (w : World)
  : result unit * interp :=
  script (boot path argv w).

(** How a process ends: with a status its parent can read, or with an
    ordinary exception at the top level.  In the latter case the
    interpreter prints the traceback, and what the process then ends
    with depends on the class of the exception (status 1 for most,
    death by signal for [KeyboardInterrupt]), which [exn] does not
    expose; the exception itself is kept. *)
Inductive ending : Type :=
| Status (n : Z)
| Traceback (e : exn).

(** The status a parent reads after [sys.exit (code)], as CPython 3 on
    a POSIX system with a 64-bit [long] produces it: an integer goes
    through [PyLong_AsLong] (-1 when it does not fit), a cast to [int]
    and the low eight bits [exit] passes on; [None] is 0; any other
    object is printed and gives 1. *)
Definition exit_code (code : pyval) : Z :=
  match code with
  | PyInt n => wait_status (to_c_int (as_c_long n))
  | PyNone => 0
  | PyStr _ => 1
  end.

(** The ending of the process for the result of the script; a script
    that runs off its end leaves with status 0. *)
Definition exit_status (r : result unit) : ending :=
  match r with
  | Ok _ => Status 0
  | Raise (SystemExit code) => Status (exit_code code)
  | Raise (Exception e) => Traceback e
  end.

End Script.

(** ** What a statement may depend on and what it leaves alone *)

Section Frames.

Variable World : Type.
Variable exn : Type.

(** [m] does not look at [sys.argv] and does not touch it: run with
    another argument vector it does the same and leaves that vector. *)
Definition argv_blind {A} (m : M World exn A) : Prop :=
  forall a s,
    m (set_sys_argv a s) = (fst (m s), set_sys_argv a (snd (m s))).

(** [m] leaves [sys.path] and [sys.argv] as it found them. *)
Definition keeps_sys {A} (m : M World exn A) : Prop :=
  forall s,
    sys_path (snd (m s)) = sys_path s
    /\ sys_argv (snd (m s)) = sys_argv s.

End Frames.

(** ** Reading a trace *)

Section Trace.

Variable exn : Type.
Local Abbreviation event := (event exn).

(** The (directory, filename) pairs [rw_command] was called with. *)
Definition rw_calls (t : list event) : list (string * string) :=
  flat_map (fun e => match e with
                     | EvRwCommand d f _ => [(d, f)]
                     | _ => []
                     end) t.

(** The fragments [rw_command] returned. *)
Definition rw_fragments (t : list event) : list string :=
  flat_map (fun e => match e with
                     | EvRwCommand _ _ (Ok frag) => [frag]
                     | _ => []
                     end) t.

(** The commands [runtest] was called with. *)
Definition runtest_calls (t : list event) : list string :=
  flat_map (fun e => match e with
                     | EvRuntest c _ => [c]
                     | _ => []
                     end) t.

(** The arguments [sys.exit] was called with. *)
Definition exit_calls (t : list event) : list pyval :=
  flat_map (fun e => match e with
                     | EvExit v => [v]
                     | _ => []
                     end) t.

(** The log of a loop whose calls all returned: one call per filename,
    each with its fragment. *)
Definition rw_returned (d : string) (fs frags : list string)
  : list event :=
  map (fun p => EvRwCommand d (fst p) (Ok (snd p))) (combine fs frags).

End Trace.

Arguments rw_returned {exn} d fs frags.
Arguments Status {exn} n.
Arguments Traceback {exn} e.

(** ** The spec's wording, for comparison *)

(** The spec's enumeration of the fixture files, as printed there. *)
Definition spec_enumeration : string :=
  "ginsu_a_nc10.rla, ginsu_a_ncf.rla, ginsu_rgba_nc8.rla, ginsu_rgb_nc16.rla, imgmake_rgba_nc10.rla, ginsu_a_nc16.rla, ginsu_rgba_nc10.rla, ginsu_rgba_ncf.rla, ginsu_rgb_nc8.rla, imgmake_rgba_nc16.rla, ginsu_a_nc8.rla, ginsu_rgba_nc16.rla, ginsu_rgb_nc10.rla, ginsu_rgb_ncf.rla, imgmake_rgba_nc8.rla".

(** Splitting an enumeration at its commas, blanks dropped. *)
Fixpoint split_enumeration (cur : string) (s : string) : list string :=
  match s with
  | EmptyString => [cur]
  | String c s' =>
      if Ascii.eqb c "," then cur :: split_enumeration "" s'
      else if Ascii.eqb c " " then split_enumeration cur s'
      else split_enumeration (cur ++ String c "") s'
  end.

Definition spec_files : list string := split_enumeration "" spec_enumeration.

(** "Concatenate all per-file fragments, in list order, into one string",
    starting from the empty string. *)
Definition spec_aggregate (frags : list string) : string :=
  fold_left String.append frags "".

(** [s] ends in [suffix]. *)
Definition ends_with (suffix s : string) : bool :=
  let n := String.length s in
  let k := String.length suffix in
  (k <=? n)%nat && String.eqb (substring (n - k) k s) suffix.

(** ** A helper module to run the script against *)

Module Sample.

Inductive error : Type := ImportError | OSError.

(** The fixtures on disk, the status the conversion tool ends with and
    the commands run so far. *)
Record state : Type := mkState {
  fixtures : list string;
  tool_status : Z;
  ran : list string
}.

Definition import_runtest (path : list string) (w : state)
  : result error unit * state :=
  if existsb (String.eqb "testsuite") path then (Ok tt, w)
  else (Raise (Exception ImportError), w).

Definition parent : string := "/src".

Definition fragment (dir file : string) : string :=
  "iconvert " ++ dir ++ "/" ++ file ++ " " ++ file ++ " ;".

(** Builds the fragment without looking at the disk. *)
Definition rw_command (dir file : string) (w : state)
  : result error string * state :=
  (Ok (fragment dir file), w).

(** Refuses a file that is not on disk. *)
Definition rw_command_strict (dir file : string) (w : state)
  : result error string * state :=
  if existsb (String.eqb file) (fixtures w)
  then (Ok (fragment dir file), w)
  else (Raise (Exception OSError), w).

Definition runtest (command : string) (w : state)
  : result error pyval * state :=
  (Ok (PyInt (tool_status w)),
   mkState (fixtures w) (tool_status w) (ran w ++ [command])).

Definition disk (status : Z) : state := mkState files status [].

(** What the lenient helper makes of the file list. *)
Definition command : string :=
  String.concat "" (map (fragment "/src/oiio-images") files).

Definition disk_without (f : string) : state :=
  mkState (filter (fun g => negb (String.eqb f g)) files) 0 [].

(** The script as a process, against the lenient and the strict
    helper. *)
Abbreviation run argv w :=
  (main import_runtest parent rw_command runtest ["/usr/lib/python"] argv w).

Abbreviation run_strict argv w :=
  (main import_runtest parent rw_command_strict runtest
        ["/usr/lib/python"] argv w).

End Sample.

(** ** Helper modules that misbehave *)

Module Faulty.

(** A module whose body raises when imported. *)
Definition import_runtest (path : list string) (w : Sample.state)
  : result Sample.error unit * Sample.state :=
  (Raise (Exception Sample.ImportError), w).

(** A test runner that cannot start the command. *)
Definition runtest (command : string) (w : Sample.state)
  : result Sample.error pyval * Sample.state :=
  (Raise (Exception Sample.OSError), w).

(** A test runner that ends without a [return] statement. *)
Definition runtest_none (command : string) (w : Sample.state)
  : result Sample.error pyval * Sample.state :=
  (Ok PyNone,
   Sample.mkState (Sample.fixtures w) (Sample.tool_status w)
                  (Sample.ran w ++ [command])).

Abbreviation run_no_module argv w :=
  (main import_runtest Sample.parent Sample.rw_command Sample.runtest
        ["/usr/lib/python"] argv w).

Abbreviation run_no_runner argv w :=
  (main Sample.import_runtest Sample.parent Sample.rw_command runtest
        ["/usr/lib/python"] argv w).

Abbreviation run_none argv w :=
  (main Sample.import_runtest Sample.parent Sample.rw_command runtest_none
        ["/usr/lib/python"] argv w).

End Faulty.

(** ** Runs of the loop and of the script, as relations

    What a run of lines 13-19 logs and how it ends, read off the helper's
    answers; [for_each_loop_run] and [script_on_run] below show that the
    monadic program follows them. *)

Section Runs.

Variable World : Type.
Variable exn : Type.
Variable rw_command : string -> string -> World -> result exn string * World.
Variable runtest : string -> World -> result exn pyval * World.

(** [loop_run d fs acc w evs r w']: from accumulator [acc] and world
    [w], the loop over [fs] logs [evs] and ends with [r] in world
    [w']. *)
Inductive loop_run (d : string)
  : list string -> string -> World ->
    list (event exn) -> result exn string -> World -> Prop :=
| loop_done acc w :
    loop_run d [] acc w [] (Ok acc) w
| loop_next f fs acc w frag w1 evs r w' :
    rw_command d f w = (Ok frag, w1) ->
    loop_run d fs (acc ++ frag)%string w1 evs r w' ->
    loop_run d (f :: fs) acc w (EvRwCommand d f (Ok frag) :: evs) r w'
| loop_raise f fs acc w x w1 :
    rw_command d f w = (Raise x, w1) ->
    loop_run d (f :: fs) acc w [EvRwCommand d f (Raise x)] (Raise x) w1.

(** The three ways lines 13-19 can end. *)
Inductive script_run (d : string) (fs : list string) (w : World)
  : list (event exn) -> result exn unit -> World -> Prop :=
| run_build_raises evs x w1 :
    loop_run d fs "" w evs (Raise x) w1 ->
    script_run d fs w evs (Raise x) w1
| run_runtest_raises evs c w1 x w2 :
    loop_run d fs "" w evs (Ok c) w1 ->
    runtest c w1 = (Raise x, w2) ->
    script_run d fs w (evs ++ [EvRuntest c (Raise x)]) (Raise x) w2
| run_exits evs c w1 v w2 :
    loop_run d fs "" w evs (Ok c) w1 ->
    runtest c w1 = (Ok v, w2) ->
    script_run d fs w (evs ++ [EvRuntest c (Ok v); EvExit v])
               (Raise (SystemExit v)) w2.

(** [frags] are what [rw_command d] returned for [fs], one by one. *)
Definition answers (d : string) (fs frags : list string) : Prop :=
  Forall2 (fun f frag => exists w, fst (rw_command d f w) = Ok frag)
          fs frags.

(** The same three endings with the log written out: the calls that
    returned, then the call that ended the run. *)
Inductive run_shape (d : string) (fs : list string)
  : list (event exn) -> result exn unit -> Prop :=
| shape_build_raises fs1 f fs2 frags x :
    fs = fs1 ++ f :: fs2 ->
    answers d fs1 frags ->
    run_shape d fs
              (rw_returned d fs1 frags ++ [EvRwCommand d f (Raise x)])
              (Raise x)
| shape_runtest_raises frags x :
    answers d fs frags ->
    run_shape d fs
              (rw_returned d fs frags
               ++ [EvRuntest (String.concat "" frags) (Raise x)])
              (Raise x)
| shape_exits frags v :
    answers d fs frags ->
    run_shape d fs
              (rw_returned d fs frags
               ++ [EvRuntest (String.concat "" frags) (Ok v); EvExit v])
              (Raise (SystemExit v)).

End Runs.

(** * Properties *)

(** ** Strings under concatenation *)

Lemma append_nil_r (s : string) : (s ++ "")%string = s.
Proof. induction s as [|c s IH]; simpl; [|rewrite IH]; reflexivity. Qed.

Lemma append_assoc (s1 s2 s3 : string) :
  ((s1 ++ s2) ++ s3)%string = (s1 ++ (s2 ++ s3))%string.
Proof. induction s1 as [|c s1 IH]; simpl; [|rewrite IH]; reflexivity. Qed.

Lemma concat_empty_cons (x : string) (xs : list string) :
  String.concat "" (x :: xs) = (x ++ String.concat "" xs)%string.
Proof.
  destruct xs as [|y ys]; simpl.
  - symmetry. apply append_nil_r.
  - reflexivity.
Qed.

Lemma concat_empty_app (xs ys : list string) :
  String.concat "" (xs ++ ys)
  = (String.concat "" xs ++ String.concat "" ys)%string.
Proof.
  induction xs as [|x xs IH].
  - reflexivity.
  - rewrite <- app_comm_cons, !concat_empty_cons, IH.
    symmetry. apply append_assoc.
Qed.

Lemma fold_left_append (frags : list string) :
  forall acc,
    fold_left String.append frags acc
    = (acc ++ String.concat "" frags)%string.
Proof.
  induction frags as [|x xs IH]; intros acc.
  - simpl. symmetry. apply append_nil_r.
  - rewrite concat_empty_cons. simpl. rewrite IH. apply append_assoc.
Qed.

Lemma spec_aggregate_concat (frags : list string) :
  spec_aggregate frags = String.concat "" frags.
Proof. unfold spec_aggregate. apply fold_left_append. Qed.

(** ** The file list *)

Lemma files_NoDup : NoDup files.
Proof.
  unfold files.
  repeat (constructor; [simpl; intuition discriminate|]). constructor.
Qed.

Lemma count_occ_once_in_prefix (fs1 fs2 : list string) (f : string) :
  NoDup (fs1 ++ fs2) -> In f fs1 -> count_occ string_dec fs1 f = 1.
Proof.
  intros Hnd Hin.
  apply (proj1 (NoDup_count_occ' string_dec fs1)); [|exact Hin].
  eapply NoDup_app_remove_r; exact Hnd.
Qed.

(** ** Reading the log of a loop *)

Section TraceFacts.

Variable exn : Type.
Local Abbreviation event := (event exn).

Lemma rw_calls_app (t1 t2 : list event) :
  rw_calls (t1 ++ t2) = rw_calls t1 ++ rw_calls t2.
Proof. apply flat_map_app. Qed.

Lemma rw_fragments_app (t1 t2 : list event) :
  rw_fragments (t1 ++ t2) = rw_fragments t1 ++ rw_fragments t2.
Proof. apply flat_map_app. Qed.

Lemma runtest_calls_app (t1 t2 : list event) :
  runtest_calls (t1 ++ t2) = runtest_calls t1 ++ runtest_calls t2.
Proof. apply flat_map_app. Qed.

Lemma exit_calls_app (t1 t2 : list event) :
  exit_calls (t1 ++ t2) = exit_calls t1 ++ exit_calls t2.
Proof. apply flat_map_app. Qed.

Lemma rw_returned_cons d f fs frag frags :
  rw_returned d (f :: fs) (frag :: frags)
  = EvRwCommand d f (Ok frag) :: rw_returned (exn := exn) d fs frags.
Proof. reflexivity. Qed.

Lemma rw_returned_calls d fs :
  forall frags,
    List.length frags = List.length fs ->
    rw_calls (rw_returned (exn := exn) d fs frags) = map (pair d) fs.
Proof.
  induction fs as [|f fs IH]; intros [|frag frags] Hlen;
    try discriminate; [reflexivity|].
  rewrite rw_returned_cons. simpl. f_equal. apply IH.
  simpl in Hlen. lia.
Qed.

Lemma rw_returned_fragments d fs :
  forall frags,
    List.length frags = List.length fs ->
    rw_fragments (rw_returned (exn := exn) d fs frags) = frags.
Proof.
  induction fs as [|f fs IH]; intros [|frag frags] Hlen;
    try discriminate; [reflexivity|].
  rewrite rw_returned_cons. simpl. f_equal. apply IH.
  simpl in Hlen. lia.
Qed.

Lemma rw_returned_only_rw d fs frags (e : event) :
  In e (rw_returned d fs frags) ->
  exists f frag, e = EvRwCommand d f (Ok frag) /\ In f fs.
Proof.
  unfold rw_returned. rewrite in_map_iff.
  intros ([f frag] & <- & Hin). exists f, frag. split; [reflexivity|].
  eapply in_combine_l; exact Hin.
Qed.

Lemma rw_returned_runtest_calls d fs frags :
  runtest_calls (rw_returned (exn := exn) d fs frags) = [].
Proof.
  unfold rw_returned. induction (combine fs frags); simpl; auto.
Qed.

Lemma rw_returned_exit_calls d fs frags :
  exit_calls (rw_returned (exn := exn) d fs frags) = [].
Proof.
  unfold rw_returned. induction (combine fs frags); simpl; auto.
Qed.

End TraceFacts.

Section LoopFacts.

Variable World : Type.
Variable exn : Type.
Variable rw_command : string -> string -> World -> result exn string * World.

(** A loop that completes has called [rw_command] once for each file,
    in order, and returns the accumulator followed by the answers. *)
Lemma loop_run_ok d fs acc w evs c w' :
  loop_run rw_command d fs acc w evs (Ok c) w' ->
  exists frags,
    answers rw_command d fs frags
    /\ evs = rw_returned d fs frags
    /\ c = (acc ++ String.concat "" frags)%string.
Proof.
  intros Hrun. remember (Ok c) as r eqn:Hr.
  induction Hrun as [acc w | f fs acc w frag w1 evs r w' Hrw Hrun IH
                     | f fs acc w x w1 Hrw]; try discriminate.
  - injection Hr as <-. exists []. repeat split.
    + constructor.
    + symmetry. apply append_nil_r.
  - destruct (IH Hr) as (frags & Hans & -> & ->).
    exists (frag :: frags). repeat split.
    + constructor; [|exact Hans]. exists w. rewrite Hrw. reflexivity.
    + rewrite concat_empty_cons. apply append_assoc.
Qed.

(** A loop that raises stopped at the call that raised: the files
    before it were answered, the files after it were never tried. *)
Lemma loop_run_raise d fs acc w evs x w' :
  loop_run rw_command d fs acc w evs (Raise x) w' ->
  exists fs1 f fs2 frags,
    fs = fs1 ++ f :: fs2
    /\ answers rw_command d fs1 frags
    /\ evs = rw_returned d fs1 frags ++ [EvRwCommand d f (Raise x)].
Proof.
  intros Hrun. remember (Raise x) as r eqn:Hr.
  induction Hrun as [acc w | f fs acc w frag w1 evs r w' Hrw Hrun IH
                     | f fs acc w y w1 Hrw]; try discriminate.
  - destruct (IH Hr) as (fs1 & g & fs2 & frags & -> & Hans & ->).
    exists (f :: fs1), g, fs2, (frag :: frags). repeat split.
    constructor; [|exact Hans]. exists w. rewrite Hrw. reflexivity.
  - injection Hr as ->. exists [], f, fs, []. repeat split. constructor.
Qed.

Lemma answers_length d fs frags :
  answers rw_command d fs frags -> List.length frags = List.length fs.
Proof. intros H. symmetry. eapply Forall2_length; exact H. Qed.

Lemma script_run_shape runtest d fs w evs r w' :
  script_run rw_command runtest d fs w evs r w' ->
  run_shape rw_command d fs evs r.
Proof.
  intros [evs0 x w1 Hloop | evs0 c w1 x w2 Hloop Hrt
          | evs0 c w1 v w2 Hloop Hrt].
  - destruct (loop_run_raise Hloop) as (fs1 & f & fs2 & frags & -> & Hans & ->).
    econstructor; eauto.
  - destruct (loop_run_ok Hloop) as (frags & Hans & -> & ->).
    constructor; exact Hans.
  - destruct (loop_run_ok Hloop) as (frags & Hans & -> & ->).
    constructor; exact Hans.
Qed.

End LoopFacts.

(** Unfolding the script's definitions by name. *)
Ltac unfold_build_command := unfold build_command.
Ltac unfold_script_on := unfold script_on, build_command.
Ltac unfold_script := unfold script.
Ltac unfold_main := unfold main.

Section Facts.

Variable World : Type.
Variable exn : Type.

Local Abbreviation result := (result exn).
Local Abbreviation event := (event exn).
Local Abbreviation interp := (interp World exn).
Local Abbreviation M := (M World exn).

Variable import_runtest : list string -> World -> result unit * World.
Variable parent : string.
Variable rw_command : string -> string -> World -> result string * World.
Variable runtest : string -> World -> result pyval * World.

Local Abbreviation imagedir := (parent ++ "/oiio-images")%string.
Local Abbreviation build_command := (build_command rw_command).
Local Abbreviation script_on := (script_on parent rw_command runtest).
Local Abbreviation script :=
  (script import_runtest parent rw_command runtest).
Local Abbreviation main :=
  (main import_runtest parent rw_command runtest).
Local Abbreviation loop_body d :=
  (fun command f =>
     frag <- call_rw_command rw_command d f ;;
     pure (World := World) (command ++ frag)%string).

(** *** The primitives, unfolded *)

Lemma extern_eq A (f : World -> result A * World) ev (s : interp) r w' :
  f (world s) = (r, w') ->
  extern f ev s
  = (r, mkInterp (sys_path s) (sys_argv s) w' (trace s ++ [ev r])).
Proof.
  intros Hf. unfold extern. rewrite Hf. reflexivity.
Qed.

Lemma bind_ok A B (m : M A) (k : A -> M B) s a s' :
  m s = (Ok a, s') -> bind m k s = k a s'.
Proof. intros Hm. unfold bind. rewrite Hm. reflexivity. Qed.

Lemma bind_raise A B (m : M A) (k : A -> M B) s x s' :
  m s = (Raise x, s') -> bind m k s = (Raise x, s').
Proof. intros Hm. unfold bind. rewrite Hm. reflexivity. Qed.

Lemma bind_assoc A B C (m : M A) (k : A -> M B) (h : B -> M C) s :
  bind (bind m k) h s = bind m (fun a => bind (k a) h) s.
Proof. unfold bind. destruct (m s) as [[a|x] s1]; reflexivity. Qed.

Lemma bind_cong A B (m m' : M A) (k : A -> M B) s :
  m s = m' s -> bind m k s = bind m' k s.
Proof. intros H. unfold bind. rewrite H. reflexivity. Qed.

Lemma bind_ext A B (m : M A) (k k' : A -> M B) s :
  (forall a s', k a s' = k' a s') -> bind m k s = bind m k' s.
Proof.
  intros H. unfold bind. destruct (m s) as [[a|x] s1]; [apply H|reflexivity].
Qed.

(** *** The loop follows [loop_run] *)

Lemma for_each_loop_run d fs :
  forall acc (s : interp),
  exists evs w',
    loop_run rw_command d fs acc (world s) evs
             (fst (for_each fs (loop_body d) acc s)) w'
    /\ snd (for_each fs (loop_body d) acc s)
       = mkInterp (sys_path s) (sys_argv s) w' (trace s ++ evs).
Proof.
  induction fs as [|f fs IH]; intros acc s; simpl.
  - exists [], (world s). split; [constructor|].
    rewrite app_nil_r. destruct s; reflexivity.
  - destruct (rw_command d f (world s)) as [[frag|x] w1] eqn:Hrw.
    + pose (s1 := mkInterp (sys_path s) (sys_argv s) w1
                           (trace s ++ [EvRwCommand d f (Ok frag)])).
      assert (Hstep : loop_body d acc f s = (Ok (acc ++ frag)%string, s1)).
      { unfold call_rw_command.
        erewrite bind_ok by (apply extern_eq; exact Hrw). reflexivity. }
      erewrite bind_ok by exact Hstep.
      destruct (IH (acc ++ frag)%string s1) as (evs & w' & Hrun & Hs).
      exists (EvRwCommand d f (Ok frag) :: evs), w'. split.
      * econstructor; eauto.
      * rewrite Hs. simpl. rewrite <- app_assoc. reflexivity.
    + pose (s1 := mkInterp (sys_path s) (sys_argv s) w1
                           (trace s ++ [EvRwCommand d f (@Raise exn string x)])).
      assert (Hstep : loop_body d acc f s = (Raise x, s1)).
      { unfold call_rw_command.
        erewrite bind_raise by (apply extern_eq; exact Hrw). reflexivity. }
      erewrite bind_raise by exact Hstep.
      exists [EvRwCommand d f (Raise x)], w1. split.
      * constructor; assumption.
      * reflexivity.
Qed.

Lemma script_on_run fs (s : interp) :
  exists evs w',
    script_run rw_command runtest imagedir fs (world s) evs
               (fst (script_on fs s)) w'
    /\ snd (script_on fs s)
       = mkInterp (sys_path s) (sys_argv s) w' (trace s ++ evs).
Proof.
  unfold_script_on.
  destruct (for_each_loop_run imagedir fs "" s) as (evs & w1 & Hloop & Hs).
  destruct (for_each fs (loop_body imagedir) "" s) as [[c|x] s1] eqn:Hfe;
    simpl in Hloop, Hs; subst s1.
  - erewrite bind_ok by exact Hfe.
    destruct (runtest c w1) as [[v|x] w2] eqn:Hrt.
    + unfold call_runtest. erewrite bind_ok by (apply extern_eq; exact Hrt).
      exists (evs ++ [EvRuntest c (Ok v); EvExit v]), w2. split.
      * simpl. eapply run_exits; eauto.
      * simpl. unfold log; simpl. rewrite <- !app_assoc. reflexivity.
    + unfold call_runtest.
      erewrite bind_raise by (apply extern_eq; exact Hrt).
      exists (evs ++ [EvRuntest c (Raise x)]), w2. split.
      * simpl. eapply run_runtest_raises; eauto.
      * simpl. rewrite <- !app_assoc. reflexivity.
  - erewrite bind_raise by exact Hfe.
    exists evs, w1. split; [constructor; exact Hloop | reflexivity].
Qed.

(** A whole run: either the import raises and nothing else happens, or
    lines 7-19 run in the world the import leaves. *)
Lemma main_run path argv w :
  (exists x w1,
      import_runtest (script_path path) w = (Raise x, w1)
      /\ main path argv w
         = (Raise x,
            mkInterp (script_path path) argv w1
                     [EvImport "runtest" (script_path path) (Raise x)]))
  \/
  (exists w1 evs w',
      import_runtest (script_path path) w = (Ok tt, w1)
      /\ script_run rw_command runtest imagedir files w1 evs
                    (fst (main path argv w)) w'
      /\ snd (main path argv w)
         = mkInterp (script_path path) argv w'
                    (EvImport "runtest" (script_path path) (Ok tt) :: evs)).
Proof.
  unfold_main. unfold_script.
  erewrite bind_ok by (unfold assign_sys_path; reflexivity).
  unfold import_, boot, set_sys_path.
  cbn [sys_path sys_argv world trace app]. fold (script_path path).
  destruct (import_runtest (script_path path) w) as [[[]|x] w1] eqn:Himp.
  - right.
    erewrite bind_ok by (apply extern_eq; simpl; exact Himp).
    cbn [sys_path sys_argv world trace app].
    match goal with |- context [script_on files ?s0] =>
      destruct (script_on_run files s0) as (evs & w' & Hrun & Hs) end.
    exists w1, evs, w'. repeat split; [exact Hrun | exact Hs].
  - left.
    erewrite bind_raise by (apply extern_eq; simpl; exact Himp).
    exists x, w1. split; reflexivity.
Qed.

(** Every run of the script, with its log written out. *)
Lemma main_shape path argv w :
  sys_path (snd (main path argv w)) = script_path path
  /\ sys_argv (snd (main path argv w)) = argv
  /\ ((exists x,
          trace (snd (main path argv w))
          = [EvImport "runtest" (script_path path) (Raise x)]
          /\ fst (main path argv w) = Raise x)
      \/
      (exists evs,
          trace (snd (main path argv w))
          = EvImport "runtest" (script_path path) (Ok tt) :: evs
          /\ run_shape rw_command imagedir files evs
                       (fst (main path argv w)))).
Proof.
  destruct (main_run path argv w)
    as [(x & w1 & _ & Hm) | (w1 & evs & w' & _ & Hrun & Hs)].
  - rewrite Hm. simpl. repeat split. left. exists x. split; reflexivity.
  - rewrite Hs. simpl. repeat split. right. exists evs. split; [reflexivity|].
    eapply script_run_shape; exact Hrun.
Qed.

(** *** Looking an event up in a log *)

Lemma not_in_rw_returned_runtest d fs frags c (r : result pyval) :
  ~ In (EvRuntest c r) (rw_returned d fs frags).
Proof.
  intros H. apply rw_returned_only_rw in H.
  destruct H as (f & frag & H & _). discriminate.
Qed.

Lemma not_in_rw_returned_raise d fs frags d' f x :
  ~ In (EvRwCommand d' f (Raise x)) (rw_returned (exn := exn) d fs frags).
Proof.
  intros H. apply rw_returned_only_rw in H.
  destruct H as (g & frag & H & _). discriminate.
Qed.

(** Splits [In e (EvImport .. :: rw_returned .. ++ last)] into the
    cases that remain once constructors are compared. *)
Ltac find_event H :=
  simpl in H; destruct H as [H|H]; [discriminate|];
  apply in_app_or in H; destruct H as [H|H];
  [ first [ apply not_in_rw_returned_runtest in H; contradiction
          | apply not_in_rw_returned_raise in H; contradiction
          | idtac ]
  | simpl in H;
    repeat match type of H with
           | _ \/ _ => destruct H as [H|H]
           | False => contradiction
           | _ = _ => first [discriminate H | idtac]
           end ].

(** *** Exit status *)





(** *** The aggregate command *)

Lemma completed_log_projections fs frags n p ri (last : list event) :
  answers rw_command imagedir fs frags ->
  rw_calls last = [] -> rw_fragments last = [] ->
  rw_calls (EvImport n p ri :: rw_returned imagedir fs frags ++ last)
  = map (pair imagedir) fs
  /\ rw_fragments (EvImport n p ri :: rw_returned imagedir fs frags ++ last)
     = frags.
Proof.
  intros Hans Hc Hf. apply answers_length in Hans. simpl.
  rewrite rw_calls_app, rw_fragments_app, Hc, Hf, !app_nil_r.
  split; [apply rw_returned_calls | apply rw_returned_fragments];
    exact Hans.
Qed.

Lemma map_snd_pair (d : string) (fs : list string) :
  map snd (map (pair d) fs) = fs.
Proof. rewrite map_map. simpl. apply map_id. Qed.

(** C2. The command handed to [runtest.runtest] is the concatenation,
    with nothing in between and starting from the empty string, of the
    strings the calls [rw_command (imagedir, f)] returned, [f] running
    through the file list in its order. *)
Theorem aggregate_command_is_concatenation path argv w cmd r :
  In (EvRuntest cmd r) (trace (snd (main path argv w))) ->
  exists frags,
    answers rw_command imagedir files frags
    /\ rw_calls (trace (snd (main path argv w)))
       = map (pair imagedir) files
    /\ rw_fragments (trace (snd (main path argv w))) = frags
    /\ runtest_calls (trace (snd (main path argv w))) = [cmd]
    /\ cmd = String.concat "" frags
    /\ cmd = spec_aggregate frags.
Proof.
  intros Hin.
  destruct (main_shape path argv w)
    as (_ & _ & [(x & Ht & _) | (evs & Ht & Hshape)]);
    rewrite Ht in *.
  - simpl in Hin. destruct Hin as [Hin|[]]. discriminate.
  - inversion Hshape as [fs1 f fs2 frags x Hfs Hans Hevs Hr
                        | frags x Hans Hevs Hr
                        | frags v Hans Hevs Hr]; subst evs;
      find_event Hin; injection Hin as <- _; exists frags;
      (split; [exact Hans|]);
      (edestruct completed_log_projections as [-> ->];
       [exact Hans | reflexivity | reflexivity |]);
      rewrite spec_aggregate_concat; simpl;
      rewrite runtest_calls_app, rw_returned_runtest_calls;
      repeat split; reflexivity.
Qed.

(** C3. When the command is submitted, [rw_command] has been called
    fifteen times, once for each filename of the list and in its order:
    every filename was passed exactly once, and the command consists of
    the fifteen fragments those calls returned. *)
Theorem one_rw_command_call_per_file path argv w cmd r :
  In (EvRuntest cmd r) (trace (snd (main path argv w))) ->
  map snd (rw_calls (trace (snd (main path argv w)))) = files
  /\ List.length (rw_calls (trace (snd (main path argv w)))) = 15
  /\ (forall f, In f files ->
                count_occ string_dec
                  (map snd (rw_calls (trace (snd (main path argv w))))) f
                = 1)
  /\ (forall f, ~ In f files ->
                count_occ string_dec
                  (map snd (rw_calls (trace (snd (main path argv w))))) f
                = 0)
  /\ answers rw_command imagedir files
             (rw_fragments (trace (snd (main path argv w))))
  /\ List.length (rw_fragments (trace (snd (main path argv w)))) = 15
  /\ cmd = String.concat "" (rw_fragments (trace (snd (main path argv w)))).
Proof.
  intros Hin.
  destruct (main_shape path argv w)
    as (_ & _ & [(x & Ht & _) | (evs & Ht & Hshape)]);
    rewrite Ht in *.
  - simpl in Hin. destruct Hin as [Hin|[]]. discriminate.
  - inversion Hshape as [fs1 f fs2 frags x Hfs Hans Hevs Hr
                        | frags x Hans Hevs Hr
                        | frags v Hans Hevs Hr]; subst evs;
      find_event Hin; injection Hin as <- _;
      (edestruct completed_log_projections as [-> ->];
       [exact Hans | reflexivity | reflexivity |]);
      rewrite map_snd_pair, length_map;
      pose proof (answers_length Hans) as Hlen;
      (repeat split;
       [ intros g Hg;
         apply (proj1 (NoDup_count_occ' string_dec files) files_NoDup g Hg)
       | intros g Hg; apply count_occ_not_In; exact Hg
       | exact Hans
       | exact Hlen ]).
Qed.

(** *** The file list and the image directory *)

(** In every run the calls to [rw_command] walk down the file list,
    each with the image directory, as far as the run gets. *)
Lemma rw_calls_prefix path argv w :
  exists done rest,
    files = done ++ rest
    /\ rw_calls (trace (snd (main path argv w)))
       = map (pair imagedir) done.
Proof.
  destruct (main_shape path argv w)
    as (_ & _ & [(x & Ht & _) | (evs & Ht & Hshape)]);
    rewrite Ht.
  - exists [], files. split; reflexivity.
  - inversion Hshape as [fs1 f fs2 frags x Hfs Hans Hevs Hr
                        | frags x Hans Hevs Hr
                        | frags v Hans Hevs Hr]; subst evs.
    + exists (fs1 ++ [f]), fs2. split.
      * rewrite <- app_assoc. exact Hfs.
      * simpl. rewrite rw_calls_app, map_app.
        rewrite rw_returned_calls by (eapply answers_length; exact Hans).
        reflexivity.
    + exists files, []. split; [symmetry; apply app_nil_r|].
      eapply completed_log_projections; [exact Hans | reflexivity ..].
    + exists files, []. split; [symmetry; apply app_nil_r|].
      eapply completed_log_projections; [exact Hans | reflexivity ..].
Qed.

(** C4. The list the script defines is the spec's enumeration, name for
    name and in that order: fifteen distinct names ending in [.rla].
    It is a constant of the script: whatever a run does, the names it
    passes on are read off this list from its head. *)
Theorem files_is_the_spec_enumeration path argv w :
  files = spec_files
  /\ List.length files = 15
  /\ NoDup files
  /\ forallb (ends_with ".rla") files = true
  /\ exists rest,
      map snd (rw_calls (trace (snd (main path argv w)))) ++ rest = files.
Proof.
  split; [reflexivity|]. split; [reflexivity|].
  split; [exact files_NoDup|]. split; [reflexivity|].
  destruct (rw_calls_prefix path argv w) as (done & rest & Hfs & ->).
  exists rest. rewrite map_snd_pair. symmetry. exact Hfs.
Qed.

Lemma loop_run_first d f fs acc w evs r w' :
  loop_run rw_command d (f :: fs) acc w evs r w' ->
  exists rest,
    evs = EvRwCommand d f (fst (rw_command d f w)) :: rest.
Proof.
  intros Hrun.
  inversion Hrun as [ | f0 fs0 acc0 w0 frag w1 evs0 r0 w0' Hrw Hrest
                      | f0 fs0 acc0 w0 x w1 Hrw]; subst;
    rewrite Hrw; simpl; eexists; reflexivity.
Qed.

Lemma script_run_first d f fs w evs r w' :
  script_run rw_command runtest d (f :: fs) w evs r w' ->
  exists rest,
    evs = EvRwCommand d f (fst (rw_command d f w)) :: rest.
Proof.
  intros [evs0 x w1 Hloop | evs0 c w1 x w2 Hloop Hrt
          | evs0 c w1 v w2 Hloop Hrt];
    destruct (loop_run_first Hloop) as (rest & ->);
    simpl; eexists; reflexivity.
Qed.

(** C5. The directory every [rw_command] call receives is
    [runtest.parent] followed by the literal ["/oiio-images"].  Nothing
    stands between the import and the first such call: when the import
    returns, the next thing the script does, whatever the world looks
    like, is to call [rw_command] with that directory and the first
    filename, in the world the import left. *)
Theorem imagedir_is_parent_oiio_images path argv w :
  Forall (fun call => fst call = (parent ++ "/oiio-images")%string)
         (rw_calls (trace (snd (main path argv w))))
  /\ match import_runtest (script_path path) w with
     | (Raise x, _) =>
         trace (snd (main path argv w))
         = [EvImport "runtest" (script_path path) (Raise x)]
     | (Ok _, w1) =>
         exists rest,
           trace (snd (main path argv w))
           = EvImport "runtest" (script_path path) (Ok tt)
             :: EvRwCommand (parent ++ "/oiio-images") "ginsu_a_nc10.rla"
                  (fst (rw_command (parent ++ "/oiio-images")
                                   "ginsu_a_nc10.rla" w1))
             :: rest
     end.
Proof.
  split.
  - destruct (rw_calls_prefix path argv w) as (done & rest & _ & ->).
    apply Forall_map. apply Forall_forall. intros f _. reflexivity.
  - destruct (main_run path argv w)
      as [(x & w1 & Himp & Hm) | (w1 & evs & w' & Himp & Hrun & Hs)];
      rewrite Himp.
    + rewrite Hm. reflexivity.
    + rewrite Hs. simpl.
      destruct (script_run_first Hrun) as (rest & ->).
      exists rest. reflexivity.
Qed.

(** *** A failing construction step *)

(** C6. When a call to [rw_command] raises, the script ends with that
    very object raised and uncaught.  The raising call is the last thing
    the script did: [runtest.runtest] was not called, [sys.exit] was not
    called, and the file that failed was tried once and not again. *)
Theorem rw_command_error_is_fatal path argv w d f x :
  In (EvRwCommand d f (Raise x)) (trace (snd (main path argv w))) ->
  fst (main path argv w) = Raise x
  /\ (exists before,
        trace (snd (main path argv w))
        = before ++ [EvRwCommand d f (Raise x)])
  /\ runtest_calls (trace (snd (main path argv w))) = []
  /\ exit_calls (trace (snd (main path argv w))) = []
  /\ (forall c r, ~ In (EvRuntest c r) (trace (snd (main path argv w))))
  /\ (forall v, ~ In (EvExit v) (trace (snd (main path argv w))))
  /\ count_occ string_dec
               (map snd (rw_calls (trace (snd (main path argv w))))) f
     = 1.
Proof.
  intros Hin.
  destruct (main_shape path argv w)
    as (_ & _ & [(y & Ht & _) | (evs & Ht & Hshape)]);
    rewrite Ht in *.
  - simpl in Hin. destruct Hin as [Hin|[]]. discriminate.
  - inversion Hshape as [fs1 g fs2 frags y Hfiles Hans Hevs Hr
                        | frags y Hans Hevs Hr
                        | frags v Hans Hevs Hr]; subst evs;
      find_event Hin.
    injection Hin as <- <- <-.
    split; [reflexivity|].
    split.
    { exists (EvImport "runtest" (script_path path) (Ok tt)
              :: rw_returned imagedir fs1 frags). reflexivity. }
    split.
    { simpl. rewrite runtest_calls_app, rw_returned_runtest_calls.
      reflexivity. }
    split.
    { simpl. rewrite exit_calls_app, rw_returned_exit_calls.
      reflexivity. }
    split.
    { intros c r Hc. find_event Hc. }
    split.
    { intros v Hv. simpl in Hv. destruct Hv as [Hv|Hv]; [discriminate|].
      apply in_app_or in Hv. destruct Hv as [Hv|Hv].
      - apply rw_returned_only_rw in Hv.
        destruct Hv as (? & ? & Hv & _). discriminate.
      - simpl in Hv. destruct Hv as [Hv|[]]. discriminate. }
    simpl. rewrite rw_calls_app, map_app.
    rewrite rw_returned_calls by (eapply answers_length; exact Hans).
    rewrite map_snd_pair. simpl.
    apply count_occ_once_in_prefix with (fs2 := fs2).
    + rewrite <- app_assoc. simpl. rewrite <- Hfiles. exact files_NoDup.
    + apply in_or_app. right. left. reflexivity.
Qed.

(** *** The loop as a fold *)

(** Starting the loop from [acc] is starting it from the empty string
    and putting [acc] in front of what comes out. *)
Lemma for_each_from_empty d fs :
  forall acc (s : interp),
    for_each fs (loop_body d) acc s
    = (c <- for_each fs (loop_body d) "" ;;
       pure (acc ++ c)%string) s.
Proof.
  induction fs as [|f fs IH]; intros acc s.
  - simpl. unfold bind, pure. rewrite append_nil_r. reflexivity.
  - cbn [for_each].
    destruct (rw_command d f (world s)) as [[frag|x] w1] eqn:Hrw.
    + assert (Hstep : forall a,
                 loop_body d a f s
                 = (Ok (a ++ frag)%string,
                    mkInterp (sys_path s) (sys_argv s) w1
                             (trace s ++ [EvRwCommand d f (Ok frag)]))).
      { intros a. unfold call_rw_command.
        erewrite bind_ok by (apply extern_eq; exact Hrw). reflexivity. }
      rewrite (bind_ok _ _ _ (Hstep acc)).
      rewrite bind_assoc, (bind_ok _ _ _ (Hstep "")).
      set (s1 := mkInterp _ _ _ _). simpl.
      rewrite (IH (acc ++ frag)%string s1).
      rewrite (bind_cong _ _ _ _ (IH frag s1)), bind_assoc.
      apply bind_ext. intros c s2.
      unfold bind, pure. rewrite append_assoc. reflexivity.
    + assert (Hstep : forall a,
                 loop_body d a f s
                 = (Raise x,
                    mkInterp (sys_path s) (sys_argv s) w1
                             (trace s
                              ++ [EvRwCommand d f (@Raise exn string x)]))).
      { intros a. unfold call_rw_command.
        erewrite bind_raise by (apply extern_eq; exact Hrw). reflexivity. }
      rewrite (bind_raise _ _ _ (Hstep acc)).
      rewrite bind_assoc, (bind_raise _ _ _ (Hstep "")).
      reflexivity.
Qed.

Lemma for_each_app A S (body : S -> A -> M S) l1 l2 :
  forall acc s,
    for_each (l1 ++ l2) body acc s
    = bind (for_each l1 body acc) (for_each l2 body) s.
Proof.
  induction l1 as [|x l1 IH]; intros acc s.
  - reflexivity.
  - cbn [for_each app]. rewrite bind_assoc.
    apply bind_ext. intros acc' s1. apply IH.
Qed.

Lemma build_command_app d l1 l2 s :
  build_command d (l1 ++ l2) s
  = (c1 <- build_command d l1 ;;
     c2 <- build_command d l2 ;;
     pure (c1 ++ c2)%string) s.
Proof.
  unfold_build_command. rewrite for_each_app.
  apply bind_ext. intros c1 s1. apply for_each_from_empty.
Qed.

(** *** A helper whose answer depends on its arguments only *)

Section PureHelper.

Variable frag : string -> string -> string.
Hypothesis Hpure : forall d f w, fst (rw_command d f w) = Ok (frag d f).

Lemma loop_run_pure d fs acc w evs r w' :
  loop_run rw_command d fs acc w evs r w' ->
  r = Ok (acc ++ String.concat "" (map (frag d) fs))%string
  /\ evs = rw_returned d fs (map (frag d) fs).
Proof.
  induction 1 as [acc w | f fs acc w fr w1 evs r w' Hrw Hrun IH
                  | f fs acc w x w1 Hrw].
  - simpl. rewrite append_nil_r. split; reflexivity.
  - pose proof (Hpure d f w) as Hp. rewrite Hrw in Hp.
    injection Hp as ->. destruct IH as [-> ->].
    cbn [map]. rewrite concat_empty_cons, append_assoc.
    split; reflexivity.
  - pose proof (Hpure d f w) as Hp. rewrite Hrw in Hp. discriminate.
Qed.

Lemma script_on_pure fs (s : interp) :
  runtest_calls (trace (snd (script_on fs s)))
  = runtest_calls (trace s)
    ++ [String.concat "" (map (frag imagedir) fs)]
  /\ rw_fragments (trace (snd (script_on fs s)))
     = rw_fragments (trace s) ++ map (frag imagedir) fs.
Proof.
  destruct (script_on_run fs s) as (evs & w' & Hrun & ->).
  cbn [trace].
  rewrite runtest_calls_app, rw_fragments_app.
  destruct Hrun as [evs0 x w1 Hloop | evs0 c w1 x w2 Hloop Hrt
                    | evs0 c w1 v w2 Hloop Hrt];
    destruct (loop_run_pure Hloop) as [Hc ->]; try discriminate;
    injection Hc as ->;
    rewrite runtest_calls_app, rw_fragments_app,
      rw_returned_runtest_calls,
      rw_returned_fragments by apply length_map;
    simpl; rewrite app_nil_r; split; reflexivity.
Qed.

End PureHelper.

(** C7. Building the command for [l1 ++ l2] is building it for [l1],
    then for [l2], and concatenating the two strings.  With a helper
    whose fragment is a function of directory and filename, putting a
    filename [f] in (or taking it out) anywhere in the list puts in (or
    takes out) exactly the fragment of [f]: the command changes by that
    one fragment, and the fragments of the other files stay what they
    were. *)
Theorem build_command_is_homomorphism :
  (forall d l1 l2 s,
      build_command d (l1 ++ l2) s
      = (c1 <- build_command d l1 ;;
         c2 <- build_command d l2 ;;
         pure (c1 ++ c2)%string) s)
  /\ forall frag : string -> string -> string,
      (forall d f w, fst (rw_command d f w) = Ok (frag d f)) ->
      forall l1 f l2 (s : interp),
        runtest_calls (trace (snd (script_on (l1 ++ f :: l2) s)))
        = runtest_calls (trace s)
          ++ [String.concat "" (map (frag imagedir) l1)
              ++ frag imagedir f
              ++ String.concat "" (map (frag imagedir) l2)]%string
        /\ runtest_calls (trace (snd (script_on (l1 ++ l2) s)))
           = runtest_calls (trace s)
             ++ [String.concat "" (map (frag imagedir) l1)
                 ++ String.concat "" (map (frag imagedir) l2)]%string
        /\ rw_fragments (trace (snd (script_on (l1 ++ f :: l2) s)))
           = rw_fragments (trace s)
             ++ map (frag imagedir) l1
             ++ frag imagedir f :: map (frag imagedir) l2
        /\ rw_fragments (trace (snd (script_on (l1 ++ l2) s)))
           = rw_fragments (trace s)
             ++ map (frag imagedir) l1 ++ map (frag imagedir) l2
        /\ List.length
             (rw_fragments (trace (snd (script_on (l1 ++ f :: l2) s))))
           = S (List.length
                  (rw_fragments (trace (snd (script_on (l1 ++ l2) s))))).
Proof.
  split; [intros; apply build_command_app|].
  intros frag Hpure l1 f l2 s.
  destruct (script_on_pure frag Hpure (l1 ++ f :: l2) s) as [Hc1 Hf1].
  destruct (script_on_pure frag Hpure (l1 ++ l2) s) as [Hc2 Hf2].
  rewrite Hc1, Hc2, Hf1, Hf2.
  rewrite !map_app, !concat_empty_app. cbn [map].
  rewrite concat_empty_cons.
  repeat split.
  rewrite !length_app. cbn [List.length]. lia.
Qed.

(** *** Command-line arguments *)

Lemma pure_argv_blind A (a : A) : argv_blind (pure (World := World) (exn := exn) a).
Proof. intros v s. reflexivity. Qed.

Lemma bind_argv_blind A B (m : M A) (k : A -> M B) :
  argv_blind m -> (forall a, argv_blind (k a)) -> argv_blind (bind m k).
Proof.
  intros Hm Hk v s. unfold bind. rewrite Hm.
  destruct (m s) as [[a|x] s1]; simpl.
  - apply Hk.
  - reflexivity.
Qed.

Lemma extern_argv_blind A (f : World -> result A * World) ev :
  argv_blind (extern f ev).
Proof.
  intros v s. unfold extern. simpl.
  destruct (f (world s)) as [r w']. reflexivity.
Qed.

Lemma for_each_argv_blind A S (body : S -> A -> M S) l :
  (forall acc x, argv_blind (body acc x)) ->
  forall acc, argv_blind (for_each l body acc).
Proof.
  intros Hbody. induction l as [|x l IH]; intros acc; simpl.
  - apply pure_argv_blind.
  - apply bind_argv_blind; [apply Hbody | exact IH].
Qed.

Lemma script_on_argv_blind fs : argv_blind (script_on fs).
Proof.
  unfold_script_on.
  apply bind_argv_blind.
  - apply for_each_argv_blind. intros acc f.
    apply bind_argv_blind; [apply extern_argv_blind|].
    intros frag. apply pure_argv_blind.
  - intros c. apply bind_argv_blind; [apply extern_argv_blind|].
    intros v a s. reflexivity.
Qed.

Lemma script_argv_blind : argv_blind script.
Proof.
  unfold_script.
  apply bind_argv_blind; [intros v s; reflexivity|]. intros _.
  apply bind_argv_blind; [|intros _; apply script_on_argv_blind].
  intros v s. unfold import_. simpl.
  apply (extern_argv_blind (import_runtest (sys_path s))
                           (EvImport "runtest" (sys_path s)) v s).
Qed.

(** C8. The script does not read its command line.  Two processes that
    differ in [sys.argv] only, with the same helper module in the same
    world, do the same calls with the same arguments, submit the same
    command, end the same way with the same status, and each leaves its
    [sys.argv] as it was. *)
Theorem argv_is_not_read path argv argv' w :
  fst (main path argv' w) = fst (main path argv w)
  /\ trace (snd (main path argv' w)) = trace (snd (main path argv w))
  /\ runtest_calls (trace (snd (main path argv' w)))
     = runtest_calls (trace (snd (main path argv w)))
  /\ exit_status (fst (main path argv' w))
     = exit_status (fst (main path argv w))
  /\ world (snd (main path argv' w)) = world (snd (main path argv w))
  /\ sys_path (snd (main path argv' w)) = sys_path (snd (main path argv w))
  /\ sys_argv (snd (main path argv' w)) = argv'
  /\ sys_argv (snd (main path argv w)) = argv.
Proof.
  assert (Hm : main path argv' w
               = (fst (main path argv w),
                  set_sys_argv argv' (snd (main path argv w)))).
  { unfold_main.
    change (@boot World exn path argv' w)
      with (set_sys_argv argv' (@boot World exn path argv w)).
    apply script_argv_blind. }
  rewrite Hm. simpl. repeat split.
  apply main_shape.
Qed.

(** *** The module search path *)

Lemma pure_keeps_sys A (a : A) : keeps_sys (pure (World := World) (exn := exn) a).
Proof. intros s. split; reflexivity. Qed.

Lemma bind_keeps_sys A B (m : M A) (k : A -> M B) :
  keeps_sys m -> (forall a, keeps_sys (k a)) -> keeps_sys (bind m k).
Proof.
  intros Hm Hk s. unfold bind.
  destruct (Hm s) as [Hp Ha].
  destruct (m s) as [[a|x] s1]; simpl in *.
  - destruct (Hk a s1) as [Hp' Ha']. rewrite Hp', Ha'. split; assumption.
  - split; assumption.
Qed.

Lemma extern_keeps_sys A (f : World -> result A * World) ev :
  keeps_sys (extern f ev).
Proof.
  intros s. unfold extern.
  destruct (f (world s)) as [r w']. split; reflexivity.
Qed.

Lemma for_each_keeps_sys A S (body : S -> A -> M S) l :
  (forall acc x, keeps_sys (body acc x)) ->
  forall acc, keeps_sys (for_each l body acc).
Proof.
  intros Hbody. induction l as [|x l IH]; intros acc; simpl.
  - apply pure_keeps_sys.
  - apply bind_keeps_sys; [apply Hbody | exact IH].
Qed.

Lemma after_line_4_keeps_sys :
  keeps_sys (import_ import_runtest "runtest" ;; script_on files).
Proof.
  apply bind_keeps_sys.
  - intros s. unfold import_. apply extern_keeps_sys.
  - intros _. unfold_script_on.
    apply bind_keeps_sys.
    + apply for_each_keeps_sys. intros acc f.
      apply bind_keeps_sys; [apply extern_keeps_sys|].
      intros frag. apply pure_keeps_sys.
    + intros c. apply bind_keeps_sys; [apply extern_keeps_sys|].
      intros v s. split; reflexivity.
Qed.

(** C9. Of the interpreter's own state the script changes [sys.path]
    and nothing else.  It does so in its first statement, before the
    import looks the module up: the two entries [".."] and
    ["testsuite"] are put in front, the entries that were there follow
    in their order.  From there to the end of the run [sys.path] is not
    changed again, and [sys.argv] is never changed. *)
Theorem sys_path_is_prepended_once path argv w :
  sys_path (snd (main path argv w)) = [".."; "testsuite"] ++ path
  /\ (forall i, nth_error (sys_path (snd (main path argv w))) (2 + i)
                = nth_error path i)
  /\ sys_argv (snd (main path argv w)) = argv
  /\ (exists r rest,
        trace (snd (main path argv w))
        = EvImport "runtest" ([".."; "testsuite"] ++ path) r :: rest)
  /\ main path argv w
     = (import_ import_runtest "runtest" ;; script_on files)
         (mkInterp ([".."; "testsuite"] ++ path) argv w [])
  /\ keeps_sys (import_ import_runtest "runtest" ;; script_on files).
Proof.
  destruct (main_shape path argv w) as (Hp & Ha & Ht).
  split; [exact Hp|]. split; [intros i; rewrite Hp; reflexivity|].
  split; [exact Ha|]. split.
  - destruct Ht as [(x & -> & _) | (evs & -> & _)]; eexists; eexists;
      reflexivity.
  - split; [reflexivity | exact after_line_4_keeps_sys].
Qed.

(** *** The empty string as the start of the fold *)

(** C10. The accumulator starts as the empty string, which is neutral
    for concatenation.  For the empty list the loop makes no call,
    leaves the state alone and yields the empty string, and that empty
    string is what [runtest.runtest] is called with.  For a one-element
    list the loop makes the one call [rw_command (imagedir, f)] in the
    current world and yields its answer as it is; when the helper
    returns a string, [runtest.runtest] is called with exactly that
    string, in the world the helper left.  From any other start the loop
    yields that start followed by what it yields from the empty
    string. *)
Theorem empty_string_starts_the_fold d f fs acc (s : interp) :
  build_command d [] s = (Ok "", s)
  /\ trace (snd (script_on [] s))
     = trace s
       ++ EvRuntest "" (fst (runtest "" (world s)))
       :: match fst (runtest "" (world s)) with
          | Ok v => [EvExit v]
          | Raise _ => []
          end
  /\ build_command d [f] s
     = (fst (rw_command d f (world s)),
        mkInterp (sys_path s) (sys_argv s)
                 (snd (rw_command d f (world s)))
                 (trace s
                  ++ [EvRwCommand d f (fst (rw_command d f (world s)))]))
  /\ match rw_command imagedir f (world s) with
     | (Ok frag, w1) =>
         trace (snd (script_on [f] s))
         = trace s
           ++ EvRwCommand imagedir f (Ok frag)
           :: EvRuntest frag (fst (runtest frag w1))
           :: match fst (runtest frag w1) with
              | Ok v => [EvExit v]
              | Raise _ => []
              end
     | (Raise x, w1) =>
         trace (snd (script_on [f] s))
         = trace s ++ [EvRwCommand imagedir f (Raise x)]
     end
  /\ for_each fs (loop_body d) acc s
     = (c <- build_command d fs ;; pure (acc ++ c)%string) s
  /\ ("" ++ acc)%string = acc
  /\ (acc ++ "")%string = acc.
Proof.
  split; [reflexivity|]. split.
  { unfold_script_on. cbn [for_each].
    unfold bind, pure, call_runtest, extern, sys_exit, log, set_world.
    destruct (runtest "" (world s)) as [[v|x] w1]; simpl;
      rewrite <- ?app_assoc; reflexivity. }
  split.
  { unfold_build_command. cbn [for_each].
    unfold bind, pure, call_rw_command, extern, log, set_world.
    destruct (rw_command d f (world s)) as [[frag|x] w1]; reflexivity. }
  split.
  { unfold_script_on. cbn [for_each].
    unfold bind, pure, call_rw_command, call_runtest, extern, sys_exit,
      log, set_world.
    destruct (rw_command imagedir f (world s)) as [[frag|x] w1]; simpl;
      [|reflexivity].
    destruct (runtest frag w1) as [[v|y] w2]; simpl;
      rewrite <- ?app_assoc; reflexivity. }
  split; [apply for_each_from_empty|].
  split; [reflexivity | apply append_nil_r].
Qed.

(** * Further properties of the script *)

(** ** The other two calls that can fail *)

Lemma not_in_rw_returned_import d fs frags n p (r : result unit) :
  ~ In (EvImport n p r) (rw_returned d fs frags).
Proof.
  intros H. apply rw_returned_only_rw in H.
  destruct H as (f & frag & H & _). discriminate.
Qed.

Lemma not_in_rw_returned_exit d fs frags v :
  ~ In (EvExit v) (rw_returned (exn := exn) d fs frags).
Proof.
  intros H. apply rw_returned_only_rw in H.
  destruct H as (f & frag & H & _). discriminate.
Qed.

(** X1. When [import runtest] raises, the script ends with that object
    raised and has done nothing else: the import, tried along the
    extended search path, is the only call in the log, and the world is
    the one the failed import left. *)
Theorem import_error_is_fatal path argv w name p x :
  In (EvImport name p (Raise x)) (trace (snd (main path argv w))) ->
  fst (main path argv w) = Raise x
  /\ trace (snd (main path argv w))
     = [EvImport "runtest" ([".."; "testsuite"] ++ path) (Raise x)]
  /\ import_runtest ([".."; "testsuite"] ++ path) w
     = (Raise x, world (snd (main path argv w)))
  /\ rw_calls (trace (snd (main path argv w))) = []
  /\ runtest_calls (trace (snd (main path argv w))) = []
  /\ exit_calls (trace (snd (main path argv w))) = [].
Proof.
  intros Hin.
  destruct (main_run path argv w)
    as [(y & w1 & Himp & Hm) | (w1 & evs & w' & Himp & Hrun & Hs)].
  - rewrite Hm in *. simpl in Hin. destruct Hin as [Hin|[]].
    injection Hin as _ _ ->. simpl.
    repeat split. exact Himp.
  - exfalso. rewrite Hs in Hin. apply script_run_shape in Hrun.
    inversion Hrun as [fs1 g fs2 frags y Hfiles Hans Hevs Hr
                      | frags y Hans Hevs Hr
                      | frags v Hans Hevs Hr]; subst evs;
      find_event Hin;
      apply not_in_rw_returned_import in Hin; exact Hin.
Qed.

(** X2. When [runtest.runtest] raises, the script ends with that object
    raised.  By then all fifteen fragments had been built, in list order,
    and the command was submitted once; the raising call is the last
    thing in the log and [sys.exit] is never called. *)
Theorem runtest_error_is_fatal path argv w cmd x :
  In (EvRuntest cmd (Raise x)) (trace (snd (main path argv w))) ->
  fst (main path argv w) = Raise x
  /\ (exists before,
        trace (snd (main path argv w))
        = before ++ [EvRuntest cmd (Raise x)])
  /\ map snd (rw_calls (trace (snd (main path argv w)))) = files
  /\ cmd = String.concat "" (rw_fragments (trace (snd (main path argv w))))
  /\ runtest_calls (trace (snd (main path argv w))) = [cmd]
  /\ exit_calls (trace (snd (main path argv w))) = [].
Proof.
  intros Hin.
  destruct (main_shape path argv w)
    as (_ & _ & [(y & Ht & _) | (evs & Ht & Hshape)]);
    rewrite Ht in *.
  - simpl in Hin. destruct Hin as [Hin|[]]. discriminate.
  - inversion Hshape as [fs1 g fs2 frags y Hfiles Hans Hevs Hr
                        | frags y Hans Hevs Hr
                        | frags v Hans Hevs Hr]; subst evs;
      find_event Hin.
    injection Hin as <- <-.
    split; [reflexivity|]. split.
    { exists (EvImport "runtest" (script_path path) (Ok tt)
              :: rw_returned imagedir files frags). reflexivity. }
    edestruct completed_log_projections as [-> ->];
      [exact Hans | reflexivity | reflexivity |].
    rewrite map_snd_pair. simpl.
    rewrite runtest_calls_app, exit_calls_app,
      rw_returned_runtest_calls, rw_returned_exit_calls.
    repeat split.
Qed.

(** ** Leaving through [sys.exit] *)

(** X3. [sys.exit] is called exactly when [runtest.runtest] returned,
    and with the very object it returned, whatever that object is (an
    integer, [None], a string); the script then ends in [SystemExit]
    carrying that object. *)
Theorem sys_exit_gets_what_runtest_returned path argv w v :
  (In (EvExit v) (trace (snd (main path argv w)))
   <-> exists cmd, In (EvRuntest cmd (Ok v)) (trace (snd (main path argv w))))
  /\ (In (EvExit v) (trace (snd (main path argv w))) ->
      fst (main path argv w) = Raise (SystemExit v)
      /\ exit_calls (trace (snd (main path argv w))) = [v]).
Proof.
  destruct (main_shape path argv w)
    as (_ & _ & [(y & Ht & _) | (evs & Ht & Hshape)]);
    rewrite Ht.
  - split; [split|].
    + intros [Hin|[]]. discriminate.
    + intros (cmd & [Hin|[]]). discriminate.
    + intros [Hin|[]]. discriminate.
  - inversion Hshape as [fs1 g fs2 frags y Hfiles Hans Hevs Hr
                        | frags y Hans Hevs Hr
                        | frags u Hans Hevs Hr]; subst evs.
    + split; [split|].
      * intros Hin. find_event Hin.
        apply not_in_rw_returned_exit in Hin. contradiction.
      * intros (cmd & Hin). find_event Hin.
      * intros Hin. find_event Hin.
        apply not_in_rw_returned_exit in Hin. contradiction.
    + split; [split|].
      * intros Hin. find_event Hin.
        apply not_in_rw_returned_exit in Hin. contradiction.
      * intros (cmd & Hin). find_event Hin.
      * intros Hin. find_event Hin.
        apply not_in_rw_returned_exit in Hin. contradiction.
    + assert (Hu : In (EvExit v)
                      (EvImport "runtest" (script_path path) (Ok tt)
                       :: rw_returned imagedir files frags
                       ++ [EvRuntest (String.concat "" frags) (Ok u);
                           EvExit (exn := exn) u])
                   -> u = v).
      { intros Hin. find_event Hin.
        - apply not_in_rw_returned_exit in Hin. contradiction.
        - injection Hin as ->. reflexivity. }
      split; [split|].
      * intros Hin. rewrite <- (Hu Hin).
        exists (String.concat "" frags). right.
        apply in_or_app. right. left. reflexivity.
      * intros (cmd & Hin). find_event Hin. injection Hin as _ <-.
        right. apply in_or_app. right. right. left. reflexivity.
      * intros Hin. rewrite <- (Hu Hin). split; [reflexivity|].
        simpl. rewrite exit_calls_app, rw_returned_exit_calls. reflexivity.
Qed.

(** ** The world goes from call to call *)

(** The world after [rw_command] has been called on each file in turn,
    every call returning. *)
Lemma loop_run_world d fs acc w evs c w' :
  loop_run rw_command d fs acc w evs (Ok c) w' ->
  w' = fold_left (fun w0 f => snd (rw_command d f w0)) fs w.
Proof.
  intros Hrun. remember (Ok c) as r eqn:Hr.
  induction Hrun as [acc w | f fs acc w frag w1 evs r w' Hc Hrun IH
                     | f fs acc w x w1 Hc]; try discriminate.
  - reflexivity.
  - simpl. rewrite Hc. simpl. apply IH. exact Hr.
Qed.

(** X5. The helper calls are made one after the other, each in the
    world the one before it left, and the script does nothing to the
    world in between: [runtest.runtest] runs in the world that results
    from the import followed by the fifteen [rw_command] calls in list
    order, what it returns there is what the script passes on, and the
    world it leaves is the world the script ends in. *)
Theorem helper_calls_are_threaded path argv w cmd r :
  In (EvRuntest cmd r) (trace (snd (main path argv w))) ->
  r = fst (runtest cmd
             (fold_left (fun w0 f => snd (rw_command imagedir f w0)) files
                        (snd (import_runtest ([".."; "testsuite"] ++ path)
                                             w))))
  /\ world (snd (main path argv w))
     = snd (runtest cmd
              (fold_left (fun w0 f => snd (rw_command imagedir f w0)) files
                         (snd (import_runtest ([".."; "testsuite"] ++ path)
                                              w)))).
Proof.
  intros Hin.
  destruct (main_run path argv w)
    as [(y & w1 & Hi & Hm) | (w1 & evs & w' & Hi & Hrun & Hs)].
  - rewrite Hm in Hin. simpl in Hin. destruct Hin as [Hin|[]]. discriminate.
  - rewrite Hs in *. cbn [world trace] in *.
    fold (script_path path). rewrite Hi. cbn [snd].
    destruct Hrun as [evs0 x w2 Hloop | evs0 c w2 x w3 Hloop Hc
                      | evs0 c w2 v w3 Hloop Hc].
    + exfalso.
      destruct (loop_run_raise Hloop)
        as (fs1 & g & fs2 & frags & _ & _ & ->).
      find_event Hin.
    + pose proof (loop_run_world Hloop) as ->.
      destruct (loop_run_ok Hloop) as (frags & _ & -> & _).
      find_event Hin. injection Hin as <- <-.
      rewrite Hc. split; reflexivity.
    + pose proof (loop_run_world Hloop) as ->.
      destruct (loop_run_ok Hloop) as (frags & _ & -> & _).
      find_event Hin. injection Hin as <- <-.
      rewrite Hc. split; reflexivity.
Qed.

(** ** Lines 7-19 on any list of files *)

(** X6. The loop is not tied to the fifteen names.  For any list of
    filenames, repeated names included, once the command is submitted
    [rw_command] has been called with the image directory and each
    element of the list, in order and as often as the element occurs,
    and the command is the concatenation of what those calls returned. *)
Theorem script_on_any_file_list fs (s : interp) cmd r :
  trace s = [] ->
  In (EvRuntest cmd r) (trace (snd (script_on fs s))) ->
  rw_calls (trace (snd (script_on fs s))) = map (pair imagedir) fs
  /\ answers rw_command imagedir fs
             (rw_fragments (trace (snd (script_on fs s))))
  /\ cmd = String.concat "" (rw_fragments (trace (snd (script_on fs s))))
  /\ runtest_calls (trace (snd (script_on fs s))) = [cmd].
Proof.
  intros Hnil Hin.
  destruct (script_on_run fs s) as (evs & w' & Hrun & Hs).
  rewrite Hs in *. cbn [trace] in *. rewrite Hnil in *. simpl in *.
  apply script_run_shape in Hrun.
  assert (Hproj : forall frags (last : list event),
             answers rw_command imagedir fs frags ->
             rw_calls last = [] -> rw_fragments last = [] ->
             rw_calls (rw_returned imagedir fs frags ++ last)
             = map (pair imagedir) fs
             /\ rw_fragments (rw_returned imagedir fs frags ++ last)
                = frags).
  { intros frags last Hans Hc Hf.
    apply (completed_log_projections "runtest" [] (Ok tt) last Hans Hc Hf). }
  inversion Hrun as [fs1 g fs2 frags y Hfiles Hans Hevs Hr
                    | frags y Hans Hevs Hr
                    | frags v Hans Hevs Hr]; subst evs;
    apply in_app_or in Hin; destruct Hin as [Hin|Hin];
    try (apply not_in_rw_returned_runtest in Hin; contradiction);
    simpl in Hin;
    repeat match type of Hin with
           | _ \/ _ => destruct Hin as [Hin|Hin]
           | False => contradiction
           | _ = _ => first [discriminate Hin | idtac]
           end;
    injection Hin as <- _;
    (edestruct Hproj as [-> ->];
     [exact Hans | reflexivity | reflexivity |]);
    rewrite runtest_calls_app, rw_returned_runtest_calls;
    repeat split; exact Hans.
Qed.

(** ** How many calls a run makes, and in which order *)

Lemma split_at_the_only (P : event -> Prop) :
  forall (m1 l1 : list event) x l2 y m2,
    l1 ++ x :: l2 = m1 ++ y :: m2 ->
    P x -> Forall (fun e => ~ P e) m1 -> Forall (fun e => ~ P e) m2 ->
    l1 = m1 /\ x = y /\ l2 = m2.
Proof.
  induction m1 as [|b m1 IH]; intros [|a l1] x l2 y m2 Heq Hx Hm1 Hm2;
    simpl in Heq; injection Heq as Hhd Htl.
  - subst. repeat split.
  - exfalso. subst. rewrite Forall_forall in Hm2.
    apply (Hm2 x); [apply in_or_app; right; left; reflexivity | exact Hx].
  - exfalso. subst. inversion Hm1 as [|? ? Hb _]. exact (Hb Hx).
  - subst. inversion Hm1 as [|? ? _ Hm1'].
    destruct (IH _ _ _ _ _ Htl Hx Hm1' Hm2) as (-> & -> & ->).
    repeat split.
Qed.

Lemma rw_returned_no_runtest d fs frags :
  Forall (fun e : event => ~ (exists c r, e = EvRuntest c r))
         (rw_returned d fs frags).
Proof.
  apply Forall_forall. intros e He (c & r & ->).
  exact (not_in_rw_returned_runtest _ _ _ _ _ He).
Qed.

Lemma rw_returned_no_exit d fs frags :
  Forall (fun e : event => ~ (exists v, e = EvExit v))
         (rw_returned d fs frags).
Proof.
  apply Forall_forall. intros e He (v & ->).
  exact (not_in_rw_returned_exit _ _ _ _ He).
Qed.

(** X7. However a run goes, [rw_command] is called at most fifteen times,
    [runtest.runtest] at most once and [sys.exit] no more often than
    [runtest.runtest].  The order is fixed: wherever the log holds the
    [runtest.runtest] call, the fifteen [rw_command] calls for the file
    list all lie before it and none after it; wherever it holds the
    [sys.exit] call, that call is the last entry and the
    [runtest.runtest] call lies before it. *)
Theorem calls_are_bounded_and_ordered path argv w :
  List.length (rw_calls (trace (snd (main path argv w)))) <= 15
  /\ List.length (runtest_calls (trace (snd (main path argv w)))) <= 1
  /\ List.length (exit_calls (trace (snd (main path argv w))))
     <= List.length (runtest_calls (trace (snd (main path argv w))))
  /\ (forall before cmd r after,
         trace (snd (main path argv w)) = before ++ EvRuntest cmd r :: after ->
         rw_calls before = map (pair imagedir) files
         /\ runtest_calls before = []
         /\ rw_calls after = []
         /\ runtest_calls after = [])
  /\ (forall before v after,
         trace (snd (main path argv w)) = before ++ EvExit v :: after ->
         after = []
         /\ exit_calls before = []
         /\ exists cmd, runtest_calls before = [cmd]).
Proof.
  split.
  { destruct (rw_calls_prefix path argv w) as (done & rest & Hfs & ->).
    rewrite length_map.
    change 15 with (List.length files). rewrite Hfs, length_app. lia. }
  destruct (main_shape path argv w)
    as (_ & _ & [(y & Ht & _) | (evs & Ht & Hshape)]);
    rewrite Ht.
  - simpl. repeat split; try lia.
    + exfalso. destruct before as [|e [|e' before]]; discriminate.
    + exfalso. destruct before as [|e [|e' before]]; discriminate.
    + exfalso. destruct before as [|e [|e' before]]; discriminate.
    + exfalso. destruct before as [|e [|e' before]]; discriminate.
    + exfalso. destruct before as [|e [|e' before]]; discriminate.
    + exfalso. destruct before as [|e [|e' before]]; discriminate.
    + exfalso. destruct before as [|e [|e' before]]; discriminate.
  - assert (Hnone_rt : forall fs0 frags (last : list event) before cmd r after,
               EvImport "runtest" (script_path path) (Ok tt)
               :: rw_returned imagedir fs0 frags ++ last
               = before ++ EvRuntest cmd r :: after ->
               (forall c r0, ~ In (EvRuntest c r0) last) -> False).
    { intros fs0 frags last before cmd r after Heq Hlast.
      assert (Hin : In (EvRuntest cmd r)
                       (EvImport "runtest" (script_path path) (Ok tt)
                        :: rw_returned imagedir fs0 frags ++ last)).
      { rewrite Heq. apply in_or_app. right. left. reflexivity. }
      simpl in Hin. destruct Hin as [Hin|Hin]; [discriminate|].
      apply in_app_or in Hin. destruct Hin as [Hin|Hin].
      - exact (not_in_rw_returned_runtest _ _ _ _ _ Hin).
      - exact (Hlast _ _ Hin). }
    assert (Hnone_ex : forall fs0 frags (last : list event) before v after,
               EvImport "runtest" (script_path path) (Ok tt)
               :: rw_returned imagedir fs0 frags ++ last
               = before ++ EvExit v :: after ->
               (forall u, ~ In (EvExit u) last) -> False).
    { intros fs0 frags last before v after Heq Hlast.
      assert (Hin : In (EvExit v)
                       (EvImport "runtest" (script_path path) (Ok tt)
                        :: rw_returned imagedir fs0 frags ++ last)).
      { rewrite Heq. apply in_or_app. right. left. reflexivity. }
      simpl in Hin. destruct Hin as [Hin|Hin]; [discriminate|].
      apply in_app_or in Hin. destruct Hin as [Hin|Hin].
      - exact (not_in_rw_returned_exit _ _ _ _ Hin).
      - exact (Hlast _ Hin). }
    inversion Hshape as [fs1 g fs2 frags y Hfiles Hans Hevs Hr
                        | frags y Hans Hevs Hr
                        | frags v Hans Hevs Hr]; subst evs.
    + split; [|split; [|split]].
      * simpl. rewrite runtest_calls_app, rw_returned_runtest_calls.
        simpl. lia.
      * simpl. rewrite runtest_calls_app, exit_calls_app,
          rw_returned_runtest_calls, rw_returned_exit_calls. simpl. lia.
      * intros before cmd r after Heq. exfalso.
        eapply Hnone_rt; [exact Heq|].
        intros c r0 [H|[]]. discriminate.
      * intros before v after Heq. exfalso.
        eapply Hnone_ex; [exact Heq|].
        intros u [H|[]]. discriminate.
    + split; [|split; [|split]].
      * simpl. rewrite runtest_calls_app, rw_returned_runtest_calls.
        simpl. lia.
      * simpl. rewrite runtest_calls_app, exit_calls_app,
          rw_returned_runtest_calls, rw_returned_exit_calls. simpl. lia.
      * intros before cmd r after Heq. symmetry in Heq.
        change (EvImport "runtest" (script_path path) (Ok tt)
                :: rw_returned imagedir files frags
                ++ [EvRuntest (String.concat "" frags) (Raise y)])
          with ((EvImport "runtest" (script_path path) (Ok tt)
                 :: rw_returned imagedir files frags)
                ++ EvRuntest (exn := exn) (String.concat "" frags) (Raise y)
                :: []) in Heq.
        apply (split_at_the_only (fun e => exists c r, e = EvRuntest c r))
          in Heq.
        -- destruct Heq as (-> & _ & ->). simpl.
           rewrite rw_returned_runtest_calls,
             rw_returned_calls by (eapply answers_length; exact Hans).
           repeat split.
        -- eexists; eexists; reflexivity.
        -- constructor; [|apply rw_returned_no_runtest].
           intros (c & r0 & H). discriminate.
        -- constructor.
      * intros before v after Heq. exfalso.
        eapply Hnone_ex; [exact Heq|].
        intros u [H|[]]. discriminate.
    + split; [|split; [|split]].
      * simpl. rewrite runtest_calls_app, rw_returned_runtest_calls.
        simpl. lia.
      * simpl. rewrite runtest_calls_app, exit_calls_app,
          rw_returned_runtest_calls, rw_returned_exit_calls. simpl. lia.
      * intros before cmd r after Heq. symmetry in Heq.
        change (EvImport "runtest" (script_path path) (Ok tt)
                :: rw_returned imagedir files frags
                ++ [EvRuntest (String.concat "" frags) (Ok v); EvExit v])
          with ((EvImport "runtest" (script_path path) (Ok tt)
                 :: rw_returned imagedir files frags)
                ++ EvRuntest (exn := exn) (String.concat "" frags) (Ok v)
                :: [EvExit v]) in Heq.
        apply (split_at_the_only (fun e => exists c r, e = EvRuntest c r))
          in Heq.
        -- destruct Heq as (-> & _ & ->). simpl.
           rewrite rw_returned_runtest_calls,
             rw_returned_calls by (eapply answers_length; exact Hans).
           repeat split.
        -- eexists; eexists; reflexivity.
        -- constructor; [|apply rw_returned_no_runtest].
           intros (c & r0 & H). discriminate.
        -- constructor; [|constructor]. intros (c & r0 & H). discriminate.
      * intros before u after Heq. symmetry in Heq.
        replace (EvImport "runtest" (script_path path) (Ok tt)
                 :: rw_returned imagedir files frags
                 ++ [EvRuntest (String.concat "" frags) (Ok v); EvExit v])
          with ((EvImport "runtest" (script_path path) (Ok tt)
                 :: rw_returned imagedir files frags
                 ++ [EvRuntest (String.concat "" frags) (Ok v)])
                ++ EvExit (exn := exn) v :: []) in Heq
          by (simpl; rewrite <- app_assoc; reflexivity).
        apply (split_at_the_only (fun e => exists v0, e = EvExit v0)) in Heq.
        -- destruct Heq as (-> & _ & ->). simpl.
           rewrite exit_calls_app, runtest_calls_app,
             rw_returned_exit_calls, rw_returned_runtest_calls. simpl.
           repeat split. eexists. reflexivity.
        -- eexists; reflexivity.
        -- constructor; [intros (v0 & H); discriminate|].
           apply Forall_app. split; [apply rw_returned_no_exit|].
           constructor; [|constructor]. intros (v0 & H). discriminate.
        -- constructor.
Qed.

End Facts.

(** * The script against the sample helper *)

(** Picks an event out of a log that has been computed. *)
Ltac find_in_log :=
  vm_compute; repeat (first [left; reflexivity | right]).

Example sample_run_exits_with_tool_status :
  exit_status (fst (Sample.run ["run.py"] (Sample.disk 3))) = Status 3
  /\ Sample.ran (world (snd (Sample.run ["run.py"] (Sample.disk 3))))
     = [Sample.command].
Proof. split; vm_compute; reflexivity. Qed.

Example sample_run_missing_fixture :
  fst (Sample.run_strict ["run.py"] (Sample.disk_without "ginsu_a_ncf.rla"))
  = Raise (Exception Sample.OSError)
  /\ rw_calls (trace (snd (Sample.run_strict
                             ["run.py"]
                             (Sample.disk_without "ginsu_a_ncf.rla"))))
     = [("/src/oiio-images", "ginsu_a_nc10.rla");
        ("/src/oiio-images", "ginsu_a_ncf.rla")]
  /\ Sample.ran (world (snd (Sample.run_strict
                               ["run.py"]
                               (Sample.disk_without "ginsu_a_ncf.rla"))))
     = [].
Proof. repeat split; vm_compute; reflexivity. Qed.

Example sample_import_needs_the_new_path :
  Sample.import_runtest ["/usr/lib/python"] (Sample.disk 0)
  = (Raise (Exception Sample.ImportError), Sample.disk 0)
  /\ Sample.import_runtest (script_path ["/usr/lib/python"]) (Sample.disk 0)
     = (Ok tt, Sample.disk 0).
Proof. split; reflexivity. Qed.



Example exit_status_of_minus_1_and_of_a_big_integer :
  exit_status (fst (Sample.run ["run.py"] (Sample.disk (-1)))) = Status 255
  /\ exit_status (fst (Sample.run ["run.py"] (Sample.disk (2 ^ 64))))
     = Status 255.
Proof. split; vm_compute; reflexivity. Qed.

Lemma aggregate_command_is_concatenation_witness :
  In (EvRuntest Sample.command (Ok (PyInt 0)))
     (trace (snd (Sample.run ["run.py"] (Sample.disk 0))))
  /\ exists frags,
      rw_fragments (trace (snd (Sample.run ["run.py"] (Sample.disk 0))))
      = frags
      /\ Sample.command = String.concat "" frags.
Proof.
  assert (H : In (EvRuntest Sample.command (Ok (PyInt 0)))
                 (trace (snd (Sample.run ["run.py"] (Sample.disk 0)))))
    by find_in_log.
  split; [exact H|].
  destruct (aggregate_command_is_concatenation
              Sample.import_runtest Sample.parent Sample.rw_command
              Sample.runtest ["/usr/lib/python"] ["run.py"] (Sample.disk 0)
              Sample.command (Ok (PyInt 0)) H)
    as (frags & _ & _ & Hf & _ & Hc & _).
  exists frags. split; [exact Hf | exact Hc].
Defined.

Lemma one_rw_command_call_per_file_witness :
  In (EvRuntest Sample.command (Ok (PyInt 0)))
     (trace (snd (Sample.run ["run.py"] (Sample.disk 0))))
  /\ map snd (rw_calls (trace (snd (Sample.run ["run.py"] (Sample.disk 0)))))
     = files
  /\ List.length
       (rw_calls (trace (snd (Sample.run ["run.py"] (Sample.disk 0)))))
     = 15.
Proof.
  assert (H : In (EvRuntest Sample.command (Ok (PyInt 0)))
                 (trace (snd (Sample.run ["run.py"] (Sample.disk 0)))))
    by find_in_log.
  split; [exact H|].
  destruct (one_rw_command_call_per_file
              Sample.import_runtest Sample.parent Sample.rw_command
              Sample.runtest ["/usr/lib/python"] ["run.py"] (Sample.disk 0)
              Sample.command (Ok (PyInt 0)) H)
    as (Hfiles & Hlen & _).
  split; [exact Hfiles | exact Hlen].
Defined.

Lemma rw_command_error_is_fatal_witness :
  In (EvRwCommand "/src/oiio-images" "ginsu_rgb_nc16.rla"
                  (Raise (Exception Sample.OSError)))
     (trace (snd (Sample.run_strict
                    ["run.py"] (Sample.disk_without "ginsu_rgb_nc16.rla"))))
  /\ fst (Sample.run_strict
            ["run.py"] (Sample.disk_without "ginsu_rgb_nc16.rla"))
     = Raise (Exception Sample.OSError)
  /\ runtest_calls
       (trace (snd (Sample.run_strict
                      ["run.py"] (Sample.disk_without "ginsu_rgb_nc16.rla"))))
     = []
  /\ exit_calls
       (trace (snd (Sample.run_strict
                      ["run.py"] (Sample.disk_without "ginsu_rgb_nc16.rla"))))
     = [].
Proof.
  assert (H : In (EvRwCommand "/src/oiio-images" "ginsu_rgb_nc16.rla"
                              (Raise (Exception Sample.OSError)))
                 (trace (snd (Sample.run_strict
                                ["run.py"]
                                (Sample.disk_without "ginsu_rgb_nc16.rla")))))
    by find_in_log.
  split; [exact H|].
  destruct (rw_command_error_is_fatal
              Sample.import_runtest Sample.parent Sample.rw_command_strict
              Sample.runtest ["/usr/lib/python"] ["run.py"]
              (Sample.disk_without "ginsu_rgb_nc16.rla")
              "/src/oiio-images" "ginsu_rgb_nc16.rla"
              (Exception Sample.OSError) H)
    as (Hr & _ & Hrt & Hex & _).
  split; [exact Hr|]. split; [exact Hrt | exact Hex].
Defined.

Lemma build_command_is_homomorphism_witness :
  (forall d f (w : Sample.state),
      fst (Sample.rw_command d f w) = Ok (Sample.fragment d f))
  /\ runtest_calls
       (trace (snd (script_on Sample.parent Sample.rw_command Sample.runtest
                              (["a.rla"] ++ "b.rla" :: ["c.rla"])
                              (boot Sample.error [] [] (Sample.disk 0)))))
     = [(Sample.fragment "/src/oiio-images" "a.rla"
         ++ Sample.fragment "/src/oiio-images" "b.rla"
         ++ Sample.fragment "/src/oiio-images" "c.rla")%string]
  /\ runtest_calls
       (trace (snd (script_on Sample.parent Sample.rw_command Sample.runtest
                              (["a.rla"] ++ ["c.rla"])
                              (boot Sample.error [] [] (Sample.disk 0)))))
     = [(Sample.fragment "/src/oiio-images" "a.rla"
         ++ Sample.fragment "/src/oiio-images" "c.rla")%string].
Proof.
  assert (H : forall d f (w : Sample.state),
             fst (Sample.rw_command d f w) = Ok (Sample.fragment d f))
    by (intros; reflexivity).
  split; [exact H|].
  destruct (proj2 (build_command_is_homomorphism
                     Sample.parent Sample.rw_command Sample.runtest)
                  Sample.fragment H
                  ["a.rla"] "b.rla" ["c.rla"]
                  (boot Sample.error [] [] (Sample.disk 0)))
    as (Hlong & Hshort & _).
  split; [exact Hlong | exact Hshort].
Defined.

(** * The script against helpers that misbehave *)

Example none_from_runtest_is_status_0 :
  fst (Faulty.run_none ["run.py"] (Sample.disk 5))
  = Raise (SystemExit PyNone)
  /\ exit_status (fst (Faulty.run_none ["run.py"] (Sample.disk 5)))
     = Status 0.
Proof. split; vm_compute; reflexivity. Qed.

Lemma import_error_is_fatal_witness :
  In (EvImport "runtest" [".."; "testsuite"; "/usr/lib/python"]
               (Raise (Exception Sample.ImportError)))
     (trace (snd (Faulty.run_no_module ["run.py"] (Sample.disk 0))))
  /\ fst (Faulty.run_no_module ["run.py"] (Sample.disk 0))
     = Raise (Exception Sample.ImportError)
  /\ rw_calls (trace (snd (Faulty.run_no_module ["run.py"] (Sample.disk 0))))
     = [].
Proof.
  assert (H : In (EvImport "runtest" [".."; "testsuite"; "/usr/lib/python"]
                           (Raise (Exception Sample.ImportError)))
                 (trace (snd (Faulty.run_no_module
                                ["run.py"] (Sample.disk 0)))))
    by find_in_log.
  split; [exact H|].
  destruct (import_error_is_fatal
              Faulty.import_runtest Sample.parent Sample.rw_command
              Sample.runtest ["/usr/lib/python"] ["run.py"] (Sample.disk 0)
              "runtest" [".."; "testsuite"; "/usr/lib/python"]
              (Exception Sample.ImportError) H)
    as (Hr & _ & _ & Hc & _).
  split; [exact Hr | exact Hc].
Defined.

Lemma runtest_error_is_fatal_witness :
  In (EvRuntest Sample.command (Raise (Exception Sample.OSError)))
     (trace (snd (Faulty.run_no_runner ["run.py"] (Sample.disk 0))))
  /\ fst (Faulty.run_no_runner ["run.py"] (Sample.disk 0))
     = Raise (Exception Sample.OSError)
  /\ map snd (rw_calls (trace (snd (Faulty.run_no_runner
                                      ["run.py"] (Sample.disk 0)))))
     = files
  /\ exit_calls (trace (snd (Faulty.run_no_runner
                               ["run.py"] (Sample.disk 0))))
     = [].
Proof.
  assert (H : In (EvRuntest Sample.command
                            (Raise (Exception Sample.OSError)))
                 (trace (snd (Faulty.run_no_runner
                                ["run.py"] (Sample.disk 0)))))
    by find_in_log.
  split; [exact H|].
  destruct (runtest_error_is_fatal
              Sample.import_runtest Sample.parent Sample.rw_command
              Faulty.runtest ["/usr/lib/python"] ["run.py"] (Sample.disk 0)
              Sample.command (Exception Sample.OSError) H)
    as (Hr & _ & Hf & _ & _ & He).
  split; [exact Hr|]. split; [exact Hf | exact He].
Defined.

Lemma sys_exit_gets_what_runtest_returned_witness :
  In (EvExit PyNone)
     (trace (snd (Faulty.run_none ["run.py"] (Sample.disk 5))))
  /\ fst (Faulty.run_none ["run.py"] (Sample.disk 5))
     = Raise (SystemExit PyNone)
  /\ exit_calls (trace (snd (Faulty.run_none ["run.py"] (Sample.disk 5))))
     = [PyNone].
Proof.
  assert (H : In (EvExit PyNone)
                 (trace (snd (Faulty.run_none ["run.py"] (Sample.disk 5)))))
    by find_in_log.
  split; [exact H|].
  exact (proj2 (sys_exit_gets_what_runtest_returned
                  Sample.import_runtest Sample.parent Sample.rw_command
                  Faulty.runtest_none ["/usr/lib/python"] ["run.py"]
                  (Sample.disk 5) PyNone) H).
Defined.

Lemma helper_calls_are_threaded_witness :
  In (EvRuntest Sample.command (Ok (PyInt 3)))
     (trace (snd (Sample.run ["run.py"] (Sample.disk 3))))
  /\ Sample.ran (world (snd (Sample.run ["run.py"] (Sample.disk 3))))
     = [Sample.command].
Proof.
  assert (H : In (EvRuntest Sample.command (Ok (PyInt 3)))
                 (trace (snd (Sample.run ["run.py"] (Sample.disk 3)))))
    by find_in_log.
  split; [exact H|].
  rewrite (proj2 (helper_calls_are_threaded
                    Sample.import_runtest Sample.parent Sample.rw_command
                    Sample.runtest ["/usr/lib/python"] ["run.py"]
                    (Sample.disk 3) Sample.command (Ok (PyInt 3)) H)).
  reflexivity.
Defined.

Lemma script_on_any_file_list_witness :
  In (EvRuntest (Sample.fragment "/src/oiio-images" "a.rla"
                 ++ Sample.fragment "/src/oiio-images" "a.rla")%string
                (Ok (PyInt 0)))
     (trace (snd (script_on Sample.parent Sample.rw_command Sample.runtest
                            ["a.rla"; "a.rla"]
                            (boot Sample.error [] [] (Sample.disk 0)))))
  /\ rw_calls
       (trace (snd (script_on Sample.parent Sample.rw_command Sample.runtest
                              ["a.rla"; "a.rla"]
                              (boot Sample.error [] [] (Sample.disk 0)))))
     = [("/src/oiio-images", "a.rla"); ("/src/oiio-images", "a.rla")].
Proof.
  assert (H : In (EvRuntest
                    (Sample.fragment "/src/oiio-images" "a.rla"
                     ++ Sample.fragment "/src/oiio-images" "a.rla")%string
                    (Ok (PyInt 0)))
                 (trace (snd (script_on Sample.parent Sample.rw_command
                                        Sample.runtest ["a.rla"; "a.rla"]
                                        (boot Sample.error [] []
                                              (Sample.disk 0))))))
    by find_in_log.
  split; [exact H|].
  exact (proj1 (script_on_any_file_list
                  Sample.parent Sample.rw_command Sample.runtest
                  ["a.rla"; "a.rla"]
                  (boot Sample.error [] [] (Sample.disk 0))
                  _ _ eq_refl H)).
Defined.
